(** * The 3D duck block (src/block.tsx): a shallow embedding

    The block is one React component, [Block], with one child component of its
    own, [DuckModel].  What the repository's code itself does is small: it keeps
    two pieces of state and one ref, schedules one timer at mount whose callback
    posts a completion message to [window] and [window.parent], clears that timer
    at unmount, guards the camera reset by a null check, and turns the model
    around its y axis on every animation frame.

    The embedding follows the file top-down.
    - [Browser]: the part of the platform the code talks to (clock, timer table,
      the calls made on outside objects), as a state-and-exception monad.
    - [Three]: the transform of a [THREE.Group]; numbers are IEEE doubles, as in
      JavaScript, so they are Rocq's primitive floats.
    - [DuckModel], [Block]: the two components, hook by hook.
    - [React]: the life cycle that drives them (mount, unmount, events, frames).

    Rendering, asset decoding and orbit-camera mathematics belong to the wrapped
    libraries and are represented only by the calls the block makes on them. *)

From Stdlib Require Import List String Bool Arith Lia PrimFloat.
Import ListNotations.

Set Warnings "-inexact-float".
Open Scope string_scope.
Open Scope nat_scope.
Open Scope list_scope.

(** ** The browser *)

Module Browser.

(** The two window objects the code names: [window] and [window.parent]. *)
Inductive WindowRef : Type :=
| window
| window_parent.

(** The object literal posted at lines 75 and 76. *)
Record Message : Type := {
  type : string;
  blockId : string;
  completed : bool
}.

(** The instance [<OrbitControls ref={controlsRef} />] hands to the ref. Its
    inside belongs to drei; the block only ever calls [reset()] on it. *)
Inductive OrbitControls : Type :=
| orbit_controls.

(** Calls the block makes on objects it does not own. *)
Inductive Call : Type :=
| PostMessage (target : WindowRef) (message : Message) (targetOrigin : string)
| UseLoader (url : string)
| Reset (controls : OrbitControls).

(** Functions handed to [setTimeout]. The file has one, the arrow function of
    lines 74-77. *)
Inductive Callback : Type :=
| completion_callback.

Record Timer : Type := {
  timer_id : nat;
  due : nat;
  callback : Callback
}.

(** [now] is the clock in milliseconds; [calls] lists the outside calls with
    the time each was made, oldest first. *)
Record State : Type := {
  now : nat;
  timers : list Timer;
  next_timer_id : nat;
  calls : list (nat * Call)
}.

Inductive Error : Type :=
| TypeError.

Inductive Outcome (A : Type) : Type :=
| Returned (a : A) (s : State)
| Thrown (e : Error) (s : State).
Arguments Returned {A} a s.
Arguments Thrown {A} e s.

Definition M (A : Type) : Type := State -> Outcome A.

Definition ret {A : Type} (a : A) : M A := fun s => Returned a s.

Definition bind {A B : Type} (m : M A) (k : A -> M B) : M B :=
  fun s =>
    match m s with
    | Returned a s' => k a s'
    | Thrown e s' => Thrown e s'
    end.

Definition throw {A : Type} (e : Error) : M A := fun s => Thrown e s.

(** The state a computation leaves behind. An exception that escapes an event
    handler or a timer callback is reported by the browser and the page goes
    on with whatever was done before it. *)
Definition exec {A : Type} (m : M A) (s : State) : State :=
  match m s with
  | Returned _ s' => s'
  | Thrown _ s' => s'
  end.

Definition call (c : Call) : M unit :=
  fun s =>
    Returned tt
      {| now := now s;
         timers := timers s;
         next_timer_id := next_timer_id s;
         calls := calls s ++ [(now s, c)] |}.

(** [w.postMessage(message, targetOrigin)]. *)
Definition postMessage (w : WindowRef) (message : Message) (targetOrigin : string)
  : M unit :=
  call (PostMessage w message targetOrigin).

(** [setTimeout(cb, delay)]: a fresh handle; the callback is due [delay]
    milliseconds from now. *)
Definition setTimeout (cb : Callback) (delay : nat) : M nat :=
  fun s =>
    Returned (next_timer_id s)
      {| now := now s;
         timers := timers s ++
           [{| timer_id := next_timer_id s; due := now s + delay; callback := cb |}];
         next_timer_id := S (next_timer_id s);
         calls := calls s |}.

(** [clearTimeout(id)]: the timer with that handle, if still pending, is
    dropped; an unknown handle is ignored. *)
Definition clearTimeout (id : nat) : M unit :=
  fun s =>
    Returned tt
      {| now := now s;
         timers := filter (fun t => negb (timer_id t =? id)) (timers s);
         next_timer_id := next_timer_id s;
         calls := calls s |}.

Definition set_now (t : nat) : M unit :=
  fun s =>
    Returned tt
      {| now := t;
         timers := timers s;
         next_timer_id := next_timer_id s;
         calls := calls s |}.

Definition set_timers (ts : list Timer) : M unit :=
  fun s =>
    Returned tt
      {| now := now s;
         timers := ts;
         next_timer_id := next_timer_id s;
         calls := calls s |}.

(** Timers that have come due run one after the other, each at its due time
    (the clock is a logical one: a callback is never late).
    The table keeps registration order, which for a single delay is also the
    order of the due times. *)
Fixpoint fire (run : Callback -> M unit) (ts : list Timer) : M unit :=
  match ts with
  | [] => ret tt
  | t :: rest =>
      bind (set_now (due t)) (fun _ =>
      bind (run (callback t)) (fun _ =>
      fire run rest))
  end.

(** [ms] milliseconds pass: every timer due by then is taken off the table
    and run, and the clock ends [ms] later. *)
Definition elapse (run : Callback -> M unit) (ms : nat) : M unit :=
  fun s =>
    let until := now s + ms in
    let ready := filter (fun t => due t <=? until) (timers s) in
    let later := filter (fun t => negb (due t <=? until)) (timers s) in
    bind (set_timers later) (fun _ =>
    bind (fire run ready) (fun _ =>
    set_now until)) s.

(** How [postMessage] dispatches: the message event reaches the target window
    when the target origin is the wildcard or is the origin of the target's
    document. *)
Definition origin_matches (targetOrigin origin : string) : bool :=
  (targetOrigin =? "*")%string || (targetOrigin =? origin)%string.

Definition delivered (origin_of : WindowRef -> string) (c : Call)
  : option (WindowRef * Message) :=
  match c with
  | PostMessage w m o =>
      if origin_matches o (origin_of w) then Some (w, m) else None
  | _ => None
  end.

Definition initial : State :=
  {| now := 0; timers := []; next_timer_id := 0; calls := [] |}.

End Browser.

Notation "x <- m ;; k" := (Browser.bind m (fun x => k))
  (at level 61, m at next level, right associativity).
Notation "m ;; k" := (Browser.bind m (fun _ => k))
  (at level 61, right associativity).

(** ** three.js transforms *)

Module Three.

Definition Vector3 : Type := (float * float * float)%type.

Record Euler : Type := {
  x : float;
  y : float;
  z : float
}.

Record Group : Type := {
  position : Vector3;
  rotation : Euler;
  scale : Vector3
}.

Definition setScalar (s : float) : Vector3 := (s, s, s).

(** [g.rotation.y += d]. *)
Definition rotation_y_add (g : Group) (d : float) : Group :=
  {| position := position g;
     rotation := {| x := x (rotation g);
                    y := (y (rotation g) + d)%float;
                    z := z (rotation g) |};
     scale := scale g |}.

End Three.

(** ** DuckModel (lines 13-31) *)

Module DuckModel.
Import Browser Three.

(** [{ position = [0, 0, 0], scale = 1, autoRotate = false }]: every prop may
    be left out. *)
Record Props : Type := {
  position : option Vector3;
  scale : option float;
  autoRotate : option bool
}.

Definition position_of (props : Props) : Vector3 :=
  match position props with
  | Some v => v
  | None => (0%float, 0%float, 0%float)
  end.

Definition scale_of (props : Props) : float :=
  match scale props with
  | Some s => s
  | None => 1%float
  end.

Definition autoRotate_of (props : Props) : bool :=
  match autoRotate props with
  | Some b => b
  | None => false
  end.

(** [<group ref={meshRef} position={position} scale={scale}>]. *)
Record GroupElement : Type := {
  group_position : Vector3;
  group_scale : float
}.

(** [useLoader(GLTFLoader, url)]. While the asset is on its way the hook
    suspends the component; either way the call is made with this URL. What
    the hook throws to do so (the pending promise, or the error of a failed
    load) is not control flow of this model: an asset still on its way is the
    [AssetLoaded] event not having come, and a failed load that takes the tree
    down is an [Unmount]. *)
Definition useLoader (url : string) : M unit := call (UseLoader url).

(** The function handed to [useFrame], lines 20-24, on the ref's content. *)
Definition useFrame_callback (autoRotate : bool) (meshRef : option Group)
    (delta : float) : option Group :=
  match meshRef with
  | Some current =>
      if autoRotate
      then Some (rotation_y_add current (delta * 0.5)%float)
      else Some current
  | None => None
  end.

(** The component function: one loader call, then the group element. *)
Definition DuckModel (props : Props) : M GroupElement :=
  let position := position_of props in
  let scale := scale_of props in
  _ <- useLoader
         "https://content.mext.app/uploads/bae853a8-ee93-4c72-9007-d73e1df8dba9.glb" ;;
  ret {| group_position := position; group_scale := scale |}.

(** The frame callback as the last render closed over it. *)
Definition frame (props : Props) (meshRef : option Group) (delta : float)
  : option Group :=
  useFrame_callback (autoRotate_of props) meshRef delta.

(** The group the renderer creates for the element: the given position and
    scale, no rotation. *)
Definition create_group (e : GroupElement) : Group :=
  {| Three.position := group_position e;
     rotation := {| x := 0%float; y := 0%float; z := 0%float |};
     Three.scale := setScalar (group_scale e) |}.

End DuckModel.

(** ** Block (lines 67-237) *)

Module Block.
Import Browser Three.

(** [interface BlockProps]. *)
Record BlockProps : Type := {
  title : option string;
  description : option string
}.

(** The hooks of lines 68-70: two [useState] cells and one [useRef]. *)
Record State : Type := {
  autoRotate : bool;
  cameraMode : string;
  controlsRef : option OrbitControls
}.

(** [useState(true)], [useState('orbit')], [useRef()]. *)
Definition initial_state : State :=
  {| autoRotate := true; cameraMode := "orbit"; controlsRef := None |}.

(** The arrow function handed to [setTimeout], lines 74-77. *)
Definition timer_callback : M unit :=
  _ <- postMessage window
         {| type := "BLOCK_COMPLETION";
            blockId := "685da7c487fb8b8b70d865d2";
            completed := true |} "*" ;;
  postMessage window_parent
    {| type := "BLOCK_COMPLETION";
       blockId := "685da7c487fb8b8b70d865d2";
       completed := true |} "*".

Definition run_callback (cb : Callback) : M unit :=
  match cb with
  | completion_callback => timer_callback
  end.

(** The effect of lines 73-79. Its dependency list is empty, so it runs once,
    after the first commit; [effect] returns [timer], which is all the
    returned cleanup closure holds. *)
Definition effect : M nat := setTimeout completion_callback 1000.

Definition cleanup (timer : nat) : M unit := clearTimeout timer.

(** [r.reset()] on what the ref holds: a method call on [undefined] throws. *)
Definition reset (current : option OrbitControls) : M unit :=
  match current with
  | Some c => call (Reset c)
  | None => throw TypeError
  end.

Definition truthy {A : Type} (current : option A) : bool :=
  match current with
  | Some _ => true
  | None => false
  end.

(** Lines 81-85. *)
Definition resetCamera (st : State) : M unit :=
  if truthy (controlsRef st) then reset (controlsRef st) else ret tt.

(** [onChange={(e) => setAutoRotate(e.target.checked)}]. *)
Definition onChange (checked : bool) (st : State) : State :=
  {| autoRotate := checked;
     cameraMode := cameraMode st;
     controlsRef := controlsRef st |}.

(** The ref callback of [<OrbitControls ref={controlsRef} />]. *)
Definition attach_controls (c : option OrbitControls) (st : State) : State :=
  {| autoRotate := autoRotate st;
     cameraMode := cameraMode st;
     controlsRef := c |}.

(** What the returned JSX passes on. Inline styles and the fixed help texts
    are constants of the file and carry no state; they are left out. *)
Record Camera : Type := {
  camera_position : Vector3;
  fov : float;
  near : float;
  far : float
}.

Record DirectionalLight : Type := {
  directional_position : Vector3;
  directional_intensity : float;
  castShadow : bool;
  shadow_mapSize_width : float;
  shadow_mapSize_height : float
}.

Record PointLight : Type := {
  point_position : Vector3;
  point_intensity : float
}.

Record ContactShadows : Type := {
  shadows_position : Vector3;
  opacity : float;
  shadows_scale : float;
  blur : float;
  shadows_far : float
}.

Record OrbitControlsProps : Type := {
  enablePan : bool;
  enableZoom : bool;
  enableRotate : bool;
  minDistance : float;
  maxDistance : float;
  target : Vector3
}.

(** [<Canvas ...>] and its children, lines 174-222. *)
Record Scene : Type := {
  shadows : bool;
  camera : Camera;
  ambientLight_intensity : float;
  directionalLight : DirectionalLight;
  pointLight : PointLight;
  environment_preset : string;
  suspense_fallback : string;
  duckModel : DuckModel.Props;
  contactShadows : ContactShadows;
  orbitControls : OrbitControlsProps
}.

Record View : Type := {
  h1 : string;
  p : option string;
  checkbox_checked : bool;
  canvas : Scene
}.

(** [LoadingSpinner], lines 34-64: a fixed overlay. *)
Definition LoadingSpinner : string := "Loading Duck Model...".

(** [{ title = "3D Duck Visualizer", description }]. *)
Definition title_of (props : BlockProps) : string :=
  match title props with
  | Some t => t
  | None => "3D Duck Visualizer"
  end.

(** [{description && <p>...</p>}]: the empty string is falsy too. *)
Definition description_of (props : BlockProps) : option string :=
  match description props with
  | Some d => if (d =? "")%string then None else Some d
  | None => None
  end.

(** The component function, lines 87-236. *)
Definition Block (props : BlockProps) (st : State) : View :=
  {| h1 := title_of props;
     p := description_of props;
     checkbox_checked := autoRotate st;
     canvas :=
       {| shadows := true;
          camera := {| camera_position := (5%float, 5%float, 5%float);
                       fov := 50%float;
                       near := 0.1%float;
                       far := 1000%float |};
          ambientLight_intensity := 0.4%float;
          directionalLight :=
            {| directional_position := (10%float, 10%float, 5%float);
               directional_intensity := 1%float;
               castShadow := true;
               shadow_mapSize_width := 2048%float;
               shadow_mapSize_height := 2048%float |};
          pointLight :=
            {| point_position := ((-10)%float, (-10)%float, (-10)%float);
               point_intensity := 0.3%float |};
          environment_preset := "sunset";
          suspense_fallback := LoadingSpinner;
          duckModel :=
            {| DuckModel.position := None;
               DuckModel.scale := Some 1.5%float;
               DuckModel.autoRotate := Some (autoRotate st) |};
          contactShadows :=
            {| shadows_position := (0%float, (-1.5)%float, 0%float);
               opacity := 0.4%float;
               shadows_scale := 10%float;
               blur := 2.5%float;
               shadows_far := 4%float |};
          orbitControls :=
            {| enablePan := true;
               enableZoom := true;
               enableRotate := true;
               minDistance := 2%float;
               maxDistance := 20%float;
               target := (0%float, 0%float, 0%float) |} |} |}.

End Block.

(** ** The life cycle *)

Module React.
Import Browser Three.

(** One mounted [Block]: its props, its hooks, the handle its effect's cleanup
    holds, and the ref of the [DuckModel] under it ([None] until the asset has
    arrived and the group is attached). *)
Record Instance : Type := {
  props : Block.BlockProps;
  state : Block.State;
  timer : nat;
  meshRef : option Group
}.

(** The page: the browser and the block mounted as its root, if any. *)
Record World : Type := {
  browser : Browser.State;
  root : option Instance
}.

Inductive Event : Type :=
| Mount (props : Block.BlockProps)
| Unmount
| Elapse (ms : nat)
| AssetLoaded
| ControlsAttached
| CheckboxChange (checked : bool)
| ClickResetCamera
| Frame (delta : float)
| Rerender (props : Block.BlockProps).

(** A render pass: [Block] returns its JSX, then the [DuckModel] in it is
    called with the props just passed. *)
Definition render (props : Block.BlockProps) (st : Block.State)
  : M DuckModel.GroupElement :=
  DuckModel.DuckModel (Block.duckModel (Block.canvas (Block.Block props st))).

(** First render with fresh hooks, then the effect. *)
Definition mount (props : Block.BlockProps) : M Instance :=
  _ <- render props Block.initial_state ;;
  timer <- Block.effect ;;
  ret {| props := props;
         state := Block.initial_state;
         timer := timer;
         meshRef := None |}.

Definition unmount (i : Instance) : M unit := Block.cleanup (timer i).

(** The asset has arrived: the suspended [DuckModel] renders again and its
    group is attached to [meshRef]. A group already there is kept. *)
Definition asset_loaded (i : Instance) : M Instance :=
  e <- render (props i) (state i) ;;
  ret {| props := props i;
         state := state i;
         timer := timer i;
         meshRef := match meshRef i with
                    | Some g => Some g
                    | None => Some (DuckModel.create_group e)
                    end |}.

(** A state update and the render pass it causes. The element has the same
    position and scale every time, so the attached group is left as it is. *)
Definition set_state (st : Block.State) (i : Instance) : M Instance :=
  _ <- render (props i) st ;;
  ret {| props := props i;
         state := st;
         timer := timer i;
         meshRef := meshRef i |}.

(** The host renders the mounted block again, with props of its choice. The
    hooks keep their cells and the effect, whose dependency list is empty, does
    not run again. *)
Definition rerender (props' : Block.BlockProps) (i : Instance) : M Instance :=
  _ <- render props' (state i) ;;
  ret {| props := props';
         state := state i;
         timer := timer i;
         meshRef := meshRef i |}.

(** A ref assignment: no render follows. *)
Definition set_ref (st : Block.State) (i : Instance) : Instance :=
  {| props := props i;
     state := st;
     timer := timer i;
     meshRef := meshRef i |}.

Definition on_frame (delta : float) (i : Instance) : Instance :=
  {| props := props i;
     state := state i;
     timer := timer i;
     meshRef :=
       DuckModel.frame
         (Block.duckModel (Block.canvas (Block.Block (props i) (state i))))
         (meshRef i) delta |}.

(** An instance-producing computation run on the page. If it throws, the
    instance stays as it was. *)
Definition update (m : M Instance) (old : option Instance) (w : World) : World :=
  match m (browser w) with
  | Returned i b => {| browser := b; root := Some i |}
  | Thrown _ b => {| browser := b; root := old |}
  end.

(** One event. The block is the root of its page: [Mount] acts on an empty
    page only ([Rerender] is how a mounted block gets new props), and what
    happens to the DOM or the canvas reaches no component once the root is
    gone. The timer table is the browser's and runs whether
    or not anything is mounted. The file handles no error of the loader; a
    failed load that takes the tree down is, to the block, an [Unmount]. *)
Definition step (e : Event) (w : World) : World :=
  match e, root w with
  | Mount props, None => update (mount props) None w
  | Mount _, Some _ => w
  | Unmount, Some i =>
      {| browser := exec (unmount i) (browser w); root := None |}
  | Elapse ms, r =>
      {| browser := exec (elapse Block.run_callback ms) (browser w); root := r |}
  | AssetLoaded, Some i => update (asset_loaded i) (Some i) w
  | ControlsAttached, Some i =>
      {| browser := browser w;
         root := Some (set_ref (Block.attach_controls (Some orbit_controls) (state i)) i) |}
  | CheckboxChange checked, Some i =>
      update (set_state (Block.onChange checked (state i)) i) (Some i) w
  | ClickResetCamera, Some i =>
      {| browser := exec (Block.resetCamera (state i)) (browser w); root := Some i |}
  | Frame delta, Some i =>
      {| browser := browser w; root := Some (on_frame delta i) |}
  | Rerender props', Some i => update (rerender props' i) (Some i) w
  | _, None => w
  end.

Definition run (es : list Event) (w : World) : World :=
  fold_left (fun w e => step e w) es w.

Definition initial : World :=
  {| browser := Browser.initial; root := None |}.

(** *** Observations *)

Definition is_post (c : nat * Call) : bool :=
  match snd c with
  | PostMessage _ _ _ => true
  | _ => false
  end.

Definition is_reset (c : nat * Call) : bool :=
  match snd c with
  | Reset _ => true
  | _ => false
  end.

(** The [postMessage] calls made so far, with their times. *)
Definition posts (w : World) : list (nat * Call) :=
  filter is_post (calls (browser w)).

(** The number of [reset()] calls made so far. *)
Definition resets (w : World) : nat :=
  List.length (filter is_reset (calls (browser w))).

(** The URLs handed to the loader so far. *)
Definition loader_urls (w : World) : list string :=
  flat_map (fun c => match snd c with UseLoader u => [u] | _ => [] end)
           (calls (browser w)).

(** What the block currently passes to its canvas. *)
Definition scene (w : World) : option Block.Scene :=
  match root w with
  | Some i => Some (Block.canvas (Block.Block (props i) (state i)))
  | None => None
  end.

Definition view (w : World) : option Block.View :=
  match root w with
  | Some i => Some (Block.Block (props i) (state i))
  | None => None
  end.

(** *** Shapes of event sequences *)

Definition is_unmount (e : Event) : bool :=
  match e with Unmount => true | _ => false end.

Definition is_mount (e : Event) : bool :=
  match e with Mount _ => true | _ => false end.

(** No [Unmount] among the events: what was mounted stays mounted. *)
Definition stays_mounted (es : list Event) : bool :=
  forallb (fun e => negb (is_unmount e)) es.

Definition no_mount (es : list Event) : bool :=
  forallb (fun e => negb (is_mount e)) es.

(** Milliseconds that pass over the events. *)
Fixpoint elapsed (es : list Event) : nat :=
  match es with
  | [] => 0
  | Elapse ms :: rest => ms + elapsed rest
  | _ :: rest => elapsed rest
  end.

(** What is left of an event when asset loading, user interaction, frames and
    props are forgotten: the life cycle and the clock. *)
Inductive Lifecycle : Type :=
| LMount
| LUnmount
| LElapse (ms : nat).

Definition lifecycle_of (e : Event) : option Lifecycle :=
  match e with
  | Mount _ => Some LMount
  | Unmount => Some LUnmount
  | Elapse ms => Some (LElapse ms)
  | _ => None
  end.

Fixpoint lifecycle (es : list Event) : list Lifecycle :=
  match es with
  | [] => []
  | e :: rest =>
      match lifecycle_of e with
      | Some l => l :: lifecycle rest
      | None => lifecycle rest
      end
  end.

End React.

(** ** The notification, as the properties below name it *)

Definition BLOCK_COMPLETION : Browser.Message :=
  {| Browser.type := "BLOCK_COMPLETION";
     Browser.blockId := "685da7c487fb8b8b70d865d2";
     Browser.completed := true |}.

(** The two calls of one notification, both made at time [t]. *)
Definition completion_posts (t : nat) : list (nat * Browser.Call) :=
  [ (t, Browser.PostMessage Browser.window BLOCK_COMPLETION "*");
    (t, Browser.PostMessage Browser.window_parent BLOCK_COMPLETION "*") ].

Definition asset_url : string :=
  "https://content.mext.app/uploads/bae853a8-ee93-4c72-9007-d73e1df8dba9.glb".

Definition notification_delay : nat := 1000.

(** The timer the effect registers, seen in the browser's table. *)
Definition completion_timer (id d : nat) : Browser.Timer :=
  {| Browser.timer_id := id; Browser.due := d;
     Browser.callback := Browser.completion_callback |}.

(** ** The timing view

    What decides when the notification goes out: the clock, the timer table,
    the [postMessage] calls made so far and the handle held by the mounted
    block's cleanup. Every event acts on this view through its life-cycle
    shadow alone ([timing_step] below). *)

Definition posts_only (b : Browser.State) : Browser.State :=
  {| Browser.now := Browser.now b;
     Browser.timers := Browser.timers b;
     Browser.next_timer_id := Browser.next_timer_id b;
     Browser.calls := filter React.is_post (Browser.calls b) |}.

Definition timing (w : React.World) : Browser.State * option nat :=
  (posts_only (React.browser w), option_map React.timer (React.root w)).

Definition lstep (l : React.Lifecycle) (t : Browser.State * option nat)
  : Browser.State * option nat :=
  match l, snd t with
  | React.LMount, None =>
      match Block.effect (fst t) with
      | Browser.Returned id b => (b, Some id)
      | Browser.Thrown _ b => (b, None)
      end
  | React.LMount, Some _ => t
  | React.LUnmount, Some id => (Browser.exec (Block.cleanup id) (fst t), None)
  | React.LUnmount, None => t
  | React.LElapse ms, h =>
      (Browser.exec (Browser.elapse Block.run_callback ms) (fst t), h)
  end.

Definition lrun (ls : list React.Lifecycle) (t : Browser.State * option nat)
  : Browser.State * option nat :=
  fold_left (fun t l => lstep l t) ls t.

Fixpoint lelapsed (ls : list React.Lifecycle) : nat :=
  match ls with
  | [] => 0
  | React.LElapse ms :: rest => ms + lelapsed rest
  | _ :: rest => lelapsed rest
  end.

Definition lstays (ls : list React.Lifecycle) : bool :=
  forallb (fun l => match l with React.LUnmount => false | _ => true end) ls.

Definition lno_mount (ls : list React.Lifecycle) : bool :=
  forallb (fun l => match l with React.LMount => false | _ => true end) ls.

(** The timer table holds nothing but the mounted block's own timer, not yet
    due; with no block mounted it is empty. *)
Definition timing_wf (t : Browser.State * option nat) : Prop :=
  match snd t with
  | None => Browser.timers (fst t) = []
  | Some id =>
      Browser.timers (fst t) = [] \/
      exists d, Browser.timers (fst t) = [completion_timer id d] /\
                Browser.now (fst t) < d
  end.

(** [B] after [ms] more milliseconds, with [ts] left on the timer table and
    [new_calls] made meanwhile. *)
Definition advanced (B : Browser.State) (ms : nat) (ts : list Browser.Timer)
    (new_calls : list (nat * Browser.Call)) : Browser.State :=
  {| Browser.now := Browser.now B + ms;
     Browser.timers := ts;
     Browser.next_timer_id := Browser.next_timer_id B;
     Browser.calls := Browser.calls B ++ new_calls |}.

(** Milliseconds the block mounted just before [es] stays mounted: the time
    that passes up to the first [Unmount]. *)
Fixpoint mounted_time (es : list React.Event) : nat :=
  match es with
  | [] => 0
  | React.Unmount :: _ => 0
  | React.Elapse ms :: rest => ms + mounted_time rest
  | _ :: rest => mounted_time rest
  end.

(** [<Block />]. *)
Definition no_props : Block.BlockProps :=
  {| Block.title := None; Block.description := None |}.

(** What the block ever asks of the outside: the completion message to any
    origin, the one asset, a camera reset. *)
Definition call_ok (c : nat * Browser.Call) : Prop :=
  match snd c with
  | Browser.PostMessage _ m o => m = BLOCK_COMPLETION /\ o = "*"
  | Browser.UseLoader u => u = asset_url
  | Browser.Reset _ => True
  end.

(** A scene with the flag handed to [DuckModel] replaced and nothing else
    touched. *)
Definition with_autoRotate (flag : bool) (s : Block.Scene) : Block.Scene :=
  {| Block.shadows := Block.shadows s;
     Block.camera := Block.camera s;
     Block.ambientLight_intensity := Block.ambientLight_intensity s;
     Block.directionalLight := Block.directionalLight s;
     Block.pointLight := Block.pointLight s;
     Block.environment_preset := Block.environment_preset s;
     Block.suspense_fallback := Block.suspense_fallback s;
     Block.duckModel :=
       {| DuckModel.position := DuckModel.position (Block.duckModel s);
          DuckModel.scale := DuckModel.scale (Block.duckModel s);
          DuckModel.autoRotate := Some flag |};
     Block.contactShadows := Block.contactShadows s;
     Block.orbitControls := Block.orbitControls s |}.

(** The page with some other string stored in the mounted block's
    [cameraMode] cell. *)
Definition set_cameraMode (m : string) (w : React.World) : React.World :=
  {| React.browser := React.browser w;
     React.root :=
       match React.root w with
       | Some i =>
           Some {| React.props := React.props i;
                   React.state :=
                     {| Block.autoRotate := Block.autoRotate (React.state i);
                        Block.cameraMode := m;
                        Block.controlsRef := Block.controlsRef (React.state i) |};
                   React.timer := React.timer i;
                   React.meshRef := React.meshRef i |}
       | None => None
       end |}.

Definition mode_is_orbit (w : React.World) : Prop :=
  match React.root w with
  | Some i => Block.cameraMode (React.state i) = "orbit"
  | None => True
  end.

(** ** Further shapes of runs *)

(** The [Mount] events of a run, whether or not the page was empty. *)
Definition mounts (es : list React.Event) : nat :=
  List.length (filter React.is_mount es).

Definition lmounts (ls : list React.Lifecycle) : nat :=
  List.length
    (filter (fun l => match l with React.LMount => true | _ => false end) ls).

Definition is_checkbox (e : React.Event) : bool :=
  match e with React.CheckboxChange _ => true | _ => false end.

(** The checkbox is left alone. *)
Definition no_checkbox (es : list React.Event) : bool :=
  forallb (fun e => negb (is_checkbox e)) es.

(** The timer table against the mounted block, with the due time bounded: at
    most the block's own timer, due within one delay from now and never before
    the first delay of the page. *)
Definition pending_ok (t : Browser.State * option nat) : Prop :=
  match snd t with
  | None => Browser.timers (fst t) = []
  | Some id =>
      Browser.timers (fst t) = [] \/
      exists d, Browser.timers (fst t) = [completion_timer id d] /\
                Browser.now (fst t) < d /\
                d <= Browser.now (fst t) + notification_delay /\
                notification_delay <= d
  end.

(** The messages posted so far are whole notifications, each sent no earlier
    than one delay into the page's life and not in the future, and together
    with the pending timers they are no more than [n]. *)
Definition notified (t : Browser.State * option nat) (n : nat) : Prop :=
  exists ts : list nat,
    Browser.calls (fst t) = flat_map completion_posts ts /\
    Forall (fun d => notification_delay <= d /\ d <= Browser.now (fst t)) ts /\
    List.length ts + List.length (Browser.timers (fst t)) <= n.

(** A group where [DuckModel] under [Block] puts it: at the origin, scaled by
    1.5, turned about the y axis only. *)
Definition upright (g : Three.Group) : Prop :=
  Three.position g = (0%float, 0%float, 0%float) /\
  Three.scale g = (1.5%float, 1.5%float, 1.5%float) /\
  Three.x (Three.rotation g) = 0%float /\
  Three.z (Three.rotation g) = 0%float.

Definition group_upright (w : React.World) : Prop :=
  match React.root w with
  | Some i =>
      match React.meshRef i with
      | Some g => upright g
      | None => True
      end
  | None => True
  end.

(** What the two windows receive: the message events dispatched for the
    calls made so far, in order, given the origin of each window's document. *)
Definition deliveries (origin_of : Browser.WindowRef -> string) (w : React.World)
  : list (Browser.WindowRef * Browser.Message) :=
  flat_map (fun c => match Browser.delivered origin_of (snd c) with
                     | Some d => [d]
                     | None => []
                     end)
           (Browser.calls (React.browser w)).

(** The props of the latest render: those of the mount, or of the last
    [Rerender] since. *)
Fixpoint latest_props (p : Block.BlockProps) (es : list React.Event)
  : Block.BlockProps :=
  match es with
  | [] => p
  | React.Rerender p' :: rest => latest_props p' rest
  | _ :: rest => latest_props p rest
  end.

(** * Properties *)

Import Browser React.

(** ** The browser's timers *)

Lemma fire_completion (ts : list Timer) :
  forall b : Browser.State,
    exists t,
      fire Block.run_callback ts b =
      Returned tt
        {| now := t;
           timers := timers b;
           next_timer_id := next_timer_id b;
           calls := calls b ++ flat_map (fun x => completion_posts (due x)) ts |}.
Proof.
  induction ts as [|x rest IH]; intros b.
  - exists (now b). destruct b; cbn. now rewrite app_nil_r.
  - destruct x as [id d cb]; destruct cb.
    cbn [fire]. unfold bind at 1. cbn [set_now due].
    unfold bind at 1. cbn [callback Block.run_callback].
    unfold Block.timer_callback, postMessage, bind at 1, call. cbn.
    match goal with |- context [fire _ rest ?b'] => destruct (IH b') as [t Ht] end.
    exists t. rewrite Ht. cbn. repeat rewrite <- app_assoc. reflexivity.
Qed.

Lemma elapse_completion (ms : nat) (b : Browser.State) :
  elapse Block.run_callback ms b =
  Returned tt
    {| now := now b + ms;
       timers := filter (fun t => negb (due t <=? now b + ms)) (timers b);
       next_timer_id := next_timer_id b;
       calls := calls b ++
                flat_map (fun x => completion_posts (due x))
                         (filter (fun t => due t <=? now b + ms) (timers b)) |}.
Proof.
  unfold elapse, bind at 1, set_timers.
  unfold bind.
  match goal with |- context [fire _ ?ts ?b'] =>
    destruct (fire_completion ts b') as [t Ht] end.
  rewrite Ht. reflexivity.
Qed.

Lemma filter_is_post_completion (ts : list Timer) :
  filter is_post (flat_map (fun x => completion_posts (due x)) ts) =
  flat_map (fun x => completion_posts (due x)) ts.
Proof.
  induction ts as [|x rest IH]; cbn; [reflexivity|].
  now rewrite IH.
Qed.

Lemma posts_only_elapse (ms : nat) (b : Browser.State) :
  posts_only (exec (elapse Block.run_callback ms) b) =
  exec (elapse Block.run_callback ms) (posts_only b).
Proof.
  unfold exec. rewrite !elapse_completion. unfold posts_only; cbn.
  now rewrite filter_app, filter_is_post_completion.
Qed.

(** ** Events on the timing view *)

Lemma timing_step (e : Event) (w : World) :
  timing (step e w) =
  match lifecycle_of e with
  | Some l => lstep l (timing w)
  | None => timing w
  end.
Proof.
  destruct w as [b r]; destruct e; destruct r as [i|];
    cbn [lifecycle_of]; try reflexivity.
  - (* Mount on an empty page *)
    unfold timing, step, update, lstep; cbn.
    unfold posts_only; cbn. rewrite filter_app; cbn. now rewrite app_nil_r.
  - (* Elapse, mounted *)
    unfold timing, step, lstep; cbn. now rewrite posts_only_elapse.
  - (* Elapse, empty page *)
    unfold timing, step, lstep; cbn. now rewrite posts_only_elapse.
  - (* AssetLoaded *)
    unfold timing, step, update; cbn.
    unfold posts_only; cbn. rewrite filter_app; cbn. now rewrite app_nil_r.
  - (* CheckboxChange *)
    unfold timing, step, update; cbn.
    unfold posts_only; cbn. rewrite filter_app; cbn. now rewrite app_nil_r.
  - (* ClickResetCamera *)
    unfold timing, step, Block.resetCamera; cbn.
    destruct (Block.controlsRef (state i)) as [c|]; cbn; [|reflexivity].
    unfold posts_only; cbn. rewrite filter_app; cbn. now rewrite app_nil_r.
  - (* Rerender *)
    unfold timing, step, update; cbn.
    unfold posts_only; cbn. rewrite filter_app; cbn. now rewrite app_nil_r.
Qed.

Lemma lifecycle_app (es1 es2 : list Event) :
  lifecycle (es1 ++ es2) = lifecycle es1 ++ lifecycle es2.
Proof.
  induction es1 as [|e rest IH]; cbn; [reflexivity|].
  destruct (lifecycle_of e); cbn; now rewrite IH.
Qed.

Lemma timing_run (es : list Event) :
  forall w, timing (run es w) = lrun (lifecycle es) (timing w).
Proof.
  induction es as [|e rest IH]; intros w; cbn; [reflexivity|].
  unfold run in IH. rewrite IH, timing_step.
  destruct (lifecycle_of e); reflexivity.
Qed.

Lemma posts_timing (w : World) : posts w = calls (fst (timing w)).
Proof. reflexivity. Qed.

Lemma elapsed_lifecycle (es : list Event) : lelapsed (lifecycle es) = elapsed es.
Proof.
  induction es as [|e rest IH]; cbn; [reflexivity|].
  destruct e; cbn; now rewrite ?IH.
Qed.

Lemma stays_lifecycle (es : list Event) : lstays (lifecycle es) = stays_mounted es.
Proof.
  induction es as [|e rest IH]; cbn; [reflexivity|].
  destruct e; cbn; now rewrite ?IH.
Qed.

Lemma no_mount_lifecycle (es : list Event) : lno_mount (lifecycle es) = no_mount es.
Proof.
  induction es as [|e rest IH]; cbn; [reflexivity|].
  destruct e; cbn; now rewrite ?IH.
Qed.

(** ** Runs of the timing view *)

Lemma advanced_0 (B : Browser.State) : advanced B 0 (timers B) [] = B.
Proof.
  destruct B; unfold advanced; cbn. now rewrite Nat.add_0_r, app_nil_r.
Qed.

Lemma elapse_idle (ms : nat) (B : Browser.State) :
  timers B = [] ->
  exec (elapse Block.run_callback ms) B = advanced B ms [] [].
Proof.
  intros HT. unfold exec. rewrite elapse_completion, HT. reflexivity.
Qed.

Lemma elapse_pending (ms id d : nat) (B : Browser.State) :
  timers B = [completion_timer id d] ->
  exec (elapse Block.run_callback ms) B =
  if d <=? now B + ms
  then advanced B ms [] (completion_posts d)
  else advanced B ms [completion_timer id d] [].
Proof.
  intros HT. unfold exec. rewrite elapse_completion, HT. cbn.
  destruct (d <=? now B + ms); cbn; reflexivity.
Qed.

(** With an empty timer table and nothing mounted anew, time is all that
    changes. *)
Lemma lrun_idle_mounted (ls : list Lifecycle) :
  forall B id,
    timers B = [] ->
    lstays ls = true ->
    lrun ls (B, Some id) = (advanced B (lelapsed ls) [] [], Some id).
Proof.
  induction ls as [|l rest IH]; intros B id HT HS.
  - cbn. rewrite <- HT. now rewrite advanced_0.
  - destruct l; cbn in HS |- *; try discriminate.
    + now apply IH.
    + unfold lstep; cbn. rewrite (elapse_idle ms B HT).
      unfold lrun in IH. rewrite IH by (auto; reflexivity).
      unfold advanced; cbn. rewrite !app_nil_r, Nat.add_assoc. reflexivity.
Qed.

Lemma lrun_unmounted (ls : list Lifecycle) :
  forall B,
    timers B = [] ->
    lno_mount ls = true ->
    lrun ls (B, None) = (advanced B (lelapsed ls) [] [], None).
Proof.
  induction ls as [|l rest IH]; intros B HT HS.
  - cbn. rewrite <- HT. now rewrite advanced_0.
  - destruct l; cbn in HS |- *; try discriminate.
    + now apply IH.
    + unfold lstep; cbn. rewrite (elapse_idle ms B HT).
      unfold lrun in IH. rewrite IH by (auto; reflexivity).
      unfold advanced; cbn. rewrite !app_nil_r, Nat.add_assoc. reflexivity.
Qed.

(** With the block's timer pending and no unmount, the callback runs exactly
    when the clock reaches the due time, and never again. *)
Lemma lrun_pending (ls : list Lifecycle) :
  forall B id d,
    timers B = [completion_timer id d] ->
    now B < d ->
    lstays ls = true ->
    lrun ls (B, Some id) =
    (if d <=? now B + lelapsed ls
     then advanced B (lelapsed ls) [] (completion_posts d)
     else advanced B (lelapsed ls) [completion_timer id d] [],
     Some id).
Proof.
  induction ls as [|l rest IH]; intros B id d HT Hlt HS.
  - cbn [lrun fold_left lelapsed]. rewrite Nat.add_0_r.
    destruct (Nat.leb_spec d (now B)); [lia|].
    rewrite <- HT. now rewrite advanced_0.
  - destruct l; cbn in HS; try discriminate.
    + cbn. now apply IH.
    + cbn [lrun fold_left lelapsed]. unfold lstep; cbn [snd fst].
      rewrite (elapse_pending ms id d B HT).
      destruct (Nat.leb_spec d (now B + ms)) as [Hd|Hd].
      * (* the timer comes due within this stretch *)
        fold (lrun rest (advanced B ms [] (completion_posts d), Some id)).
        rewrite lrun_idle_mounted by (auto; reflexivity).
        destruct (Nat.leb_spec d (now B + (ms + lelapsed rest))); [|lia].
        unfold advanced; cbn. rewrite app_nil_r, Nat.add_assoc. reflexivity.
      * fold (lrun rest (advanced B ms [completion_timer id d] [], Some id)).
        rewrite (IH _ id d) by (auto; cbn; lia).
        cbn [advanced now]. rewrite <- Nat.add_assoc.
        destruct (d <=? now B + (ms + lelapsed rest));
          unfold advanced; cbn; rewrite ?app_nil_r, ?Nat.add_assoc; reflexivity.
Qed.

Lemma lstep_wf (l : Lifecycle) (t : Browser.State * option nat) :
  timing_wf t -> timing_wf (lstep l t).
Proof.
  destruct t as [B h]. unfold timing_wf; cbn [fst snd].
  destruct l, h as [id|]; unfold lstep; cbn [fst snd]; intros H; auto.
  - (* mount: the fresh timer is the only one *)
    cbn. right. exists (now B + 1000). rewrite H. cbn. split; [reflexivity|lia].
  - (* unmount: the cleanup takes the block's timer off the table *)
    cbn. destruct H as [-> | (d & -> & _)]; cbn; [reflexivity|].
    now rewrite Nat.eqb_refl.
  - (* time passes, mounted *)
    destruct H as [H | (d & H & Hlt)].
    + left. now rewrite (elapse_idle ms B H).
    + rewrite (elapse_pending ms id d B H).
      destruct (Nat.leb_spec d (now B + ms)); [left; reflexivity|].
      right. exists d. cbn. split; [reflexivity|lia].
  - now rewrite (elapse_idle ms B H).
Qed.

Lemma lrun_wf (ls : list Lifecycle) :
  forall t, timing_wf t -> timing_wf (lrun ls t).
Proof.
  induction ls as [|l rest IH]; intros t H; cbn; [exact H|].
  apply IH, lstep_wf, H.
Qed.

Lemma reachable_wf (es : list Event) : timing_wf (timing (run es initial)).
Proof.
  rewrite timing_run. apply lrun_wf. reflexivity.
Qed.

Lemma run_app (es1 es2 : list Event) (w : World) :
  run (es1 ++ es2) w = run es2 (run es1 w).
Proof. apply fold_left_app. Qed.

Lemma lrun_app (ls1 ls2 : list Lifecycle) (t : Browser.State * option nat) :
  lrun (ls1 ++ ls2) t = lrun ls2 (lrun ls1 t).
Proof. apply fold_left_app. Qed.

(** A mount on an empty, reachable page leaves exactly the block's timer on
    the table, due one delay from now. *)
Lemma timing_after_mount (es0 : list Event) (props : Block.BlockProps) :
  root (run es0 initial) = None ->
  exists B id,
    timing (step (Mount props) (run es0 initial)) = (B, Some id) /\
    timers B =
      [completion_timer id (now (browser (run es0 initial)) + notification_delay)] /\
    now B = now (browser (run es0 initial)) /\
    calls B = posts (run es0 initial).
Proof.
  intros Hroot.
  pose proof (reachable_wf es0) as Hwf.
  rewrite timing_step; cbn [lifecycle_of].
  unfold timing_wf, timing in *. rewrite Hroot in *. cbn [option_map fst snd] in *.
  unfold lstep; cbn [fst snd]. unfold Block.effect, setTimeout.
  eexists _, _. split; [reflexivity|]. cbn.
  cbn in Hwf. rewrite Hwf. repeat split.
Qed.

(** The timing view after a mount on an empty page and events [es1] with no
    unmount among them, whatever comes after. *)
Lemma mounted_run (es0 : list Event) (props : Block.BlockProps) (es1 : list Event) :
  root (run es0 initial) = None ->
  stays_mounted es1 = true ->
  exists B id,
    now B = now (browser (run es0 initial)) /\
    calls B = posts (run es0 initial) /\
    forall rest,
      timing (run (es0 ++ Mount props :: es1 ++ rest) initial) =
      lrun (lifecycle rest)
        (if notification_delay <=? elapsed es1
         then advanced B (elapsed es1) [] (completion_posts (now B + notification_delay))
         else advanced B (elapsed es1)
                [completion_timer id (now B + notification_delay)] [],
         Some id).
Proof.
  intros Hroot Hstay.
  destruct (timing_after_mount es0 props Hroot) as (B & id & HT & Htimers & Hnow & Hcalls).
  exists B, id. split; [exact Hnow|]. split; [exact Hcalls|]. intros rest.
  rewrite <- Hnow in Htimers.
  assert (Hlt : now B < now B + notification_delay)
    by (unfold notification_delay; lia).
  rewrite run_app.
  change (run (Mount props :: ?l) ?w) with (run l (step (Mount props) w)).
  rewrite timing_run, HT, lifecycle_app, lrun_app.
  rewrite (lrun_pending _ B id _ Htimers Hlt) by (now rewrite stays_lifecycle).
  rewrite elapsed_lifecycle.
  destruct (Nat.leb_spec notification_delay (elapsed es1));
    destruct (Nat.leb_spec (now B + notification_delay) (now B + elapsed es1));
    try lia; reflexivity.
Qed.

(** A mount followed by events with no unmount among them: whatever the events
    are, the [postMessage] calls are those made before the mount, followed by
    one notification if and only if the delay has passed. *)
Lemma posts_while_mounted (es0 : list Event) (props : Block.BlockProps)
    (es : list Event) :
  root (run es0 initial) = None ->
  stays_mounted es = true ->
  posts (run (es0 ++ Mount props :: es) initial) =
  posts (run es0 initial) ++
  (if notification_delay <=? elapsed es
   then completion_posts (now (browser (run es0 initial)) + notification_delay)
   else []).
Proof.
  intros Hroot Hstay.
  destruct (mounted_run es0 props es Hroot Hstay) as (B & id & Hnow & Hcalls & H).
  specialize (H []). rewrite app_nil_r in H. cbn [lifecycle lrun fold_left] in H.
  rewrite posts_timing, H, <- Hnow, <- Hcalls.
  destruct (notification_delay <=? elapsed es); reflexivity.
Qed.

(** The same mount, then an unmount, then events with no mount among them:
    the unmount empties the timer table, and the notification has gone out
    if and only if the delay had passed before the unmount. *)
Lemma posts_after_unmount (es0 : list Event) (props : Block.BlockProps)
    (es1 es2 : list Event) :
  root (run es0 initial) = None ->
  stays_mounted es1 = true ->
  no_mount es2 = true ->
  timers (browser (run (es0 ++ Mount props :: es1 ++ [Unmount]) initial)) = [] /\
  posts (run (es0 ++ Mount props :: es1 ++ Unmount :: es2) initial) =
  posts (run es0 initial) ++
  (if notification_delay <=? elapsed es1
   then completion_posts (now (browser (run es0 initial)) + notification_delay)
   else []).
Proof.
  intros Hroot Hstay Hno.
  destruct (mounted_run es0 props es1 Hroot Hstay) as (B & id & Hnow & Hcalls & H).
  split.
  - change (timers (browser ?w)) with (timers (fst (timing w))).
    rewrite (H [Unmount]). cbn [lifecycle lifecycle_of lrun fold_left].
    destruct (notification_delay <=? elapsed es1);
      unfold lstep; cbn [fst snd]; unfold Block.cleanup, clearTimeout, exec;
      cbn [timers advanced filter timer_id completion_timer negb fst];
      rewrite ?Nat.eqb_refl; reflexivity.
  - rewrite posts_timing, (H (Unmount :: es2)), <- Hnow, <- Hcalls.
    cbn [lifecycle lifecycle_of].
    change (lrun (LUnmount :: ?ls) ?t) with (lrun ls (lstep LUnmount t)).
    destruct (notification_delay <=? elapsed es1);
      unfold lstep; cbn [fst snd]; unfold Block.cleanup, clearTimeout, exec;
      cbn [timers advanced filter timer_id completion_timer negb];
      rewrite ?Nat.eqb_refl; cbn [negb];
      (rewrite lrun_unmounted by (rewrite ?no_mount_lifecycle; auto));
      cbn [fst calls advanced]; now rewrite ?app_nil_r.
Qed.

Lemma split_at_unmount (es : list Event) :
  stays_mounted es = true \/
  exists es1 es2, es = es1 ++ Unmount :: es2 /\ stays_mounted es1 = true.
Proof.
  induction es as [|e rest IH]; [left; reflexivity|].
  destruct (is_unmount e) eqn:He.
  - right. exists [], rest. destruct e; try discriminate. split; reflexivity.
  - destruct IH as [IH | (es1 & es2 & -> & IH)].
    + left. cbn. now rewrite He.
    + right. exists (e :: es1), es2. split; [reflexivity|]. cbn. now rewrite He.
Qed.

Lemma mounted_time_stays (es : list Event) :
  stays_mounted es = true -> mounted_time es = elapsed es.
Proof.
  induction es as [|e rest IH]; [reflexivity|].
  destruct e; cbn; intros H; try discriminate; now rewrite ?IH.
Qed.

Lemma mounted_time_unmount (es1 es2 : list Event) :
  stays_mounted es1 = true ->
  mounted_time (es1 ++ Unmount :: es2) = elapsed es1.
Proof.
  induction es1 as [|e rest IH]; [reflexivity|].
  destruct e; cbn; intros H; try discriminate; now rewrite ?IH.
Qed.

Lemma no_mount_tail (es1 es2 : list Event) (e : Event) :
  no_mount (es1 ++ e :: es2) = true -> no_mount es2 = true.
Proof.
  unfold no_mount. rewrite forallb_app. cbn.
  intros H. apply andb_prop in H as [_ H]. now apply andb_prop in H as [_ H].
Qed.

(** ** The completion notification *)

(** C1. Every mount that is not unmounted before the delay has passed produces
    exactly one completion notification of the fixed shape, one second after
    the mount, posted to [window] and to [window.parent]: the [postMessage]
    calls of the run are those made before the mount followed by these two,
    whatever else happens meanwhile. *)
Theorem mount_sends_one_completion (es0 : list Event) (props : Block.BlockProps)
    (es : list Event) :
  root (run es0 initial) = None ->
  stays_mounted es = true ->
  notification_delay <= elapsed es ->
  posts (run (es0 ++ Mount props :: es) initial) =
  posts (run es0 initial) ++
  [ (now (browser (run es0 initial)) + 1000,
     PostMessage window
       {| type := "BLOCK_COMPLETION";
          blockId := "685da7c487fb8b8b70d865d2";
          completed := true |} "*");
    (now (browser (run es0 initial)) + 1000,
     PostMessage window_parent
       {| type := "BLOCK_COMPLETION";
          blockId := "685da7c487fb8b8b70d865d2";
          completed := true |} "*") ].
Proof.
  intros Hroot Hstay Hdelay.
  rewrite (posts_while_mounted es0 props es Hroot Hstay).
  destruct (Nat.leb_spec notification_delay (elapsed es)); [reflexivity|lia].
Qed.

(** A second mount, 350 ms into the page's life, with a checkbox change, the
    asset's arrival and a frame on the way: its notification goes out at
    1350 ms. *)
Lemma mount_sends_one_completion_witness :
  posts (run ([Mount no_props; Elapse 300; Unmount; Elapse 50] ++
              Mount no_props ::
              [CheckboxChange false; Elapse 600; AssetLoaded;
               Frame 0.5%float; Elapse 400; ClickResetCamera; Elapse 2000])
             initial) =
  completion_posts 1350.
Proof.
  exact (mount_sends_one_completion
           [Mount no_props; Elapse 300; Unmount; Elapse 50] no_props
           [CheckboxChange false; Elapse 600; AssetLoaded;
            Frame 0.5%float; Elapse 400; ClickResetCamera; Elapse 2000]
           eq_refl eq_refl
           (proj1 (Nat.leb_le 1000 3000) eq_refl)).
Defined.

(** C2. A block unmounted before the delay has passed never sends the
    notification: its timer is still pending when the unmount comes, the
    cleanup takes it off the table, and as long as nothing is mounted anew no
    message is posted to either window, however much time passes. *)
Theorem unmount_suppresses_completion (es0 : list Event) (props : Block.BlockProps)
    (es1 es2 : list Event) :
  root (run es0 initial) = None ->
  stays_mounted es1 = true ->
  elapsed es1 < notification_delay ->
  no_mount es2 = true ->
  posts (run (es0 ++ Mount props :: es1) initial) = posts (run es0 initial) /\
  timers (browser (run (es0 ++ Mount props :: es1 ++ [Unmount]) initial)) = [] /\
  posts (run (es0 ++ Mount props :: es1 ++ Unmount :: es2) initial) =
  posts (run es0 initial).
Proof.
  intros Hroot Hstay Hearly Hno.
  pose proof (posts_while_mounted es0 props es1 Hroot Hstay) as Hbefore.
  destruct (posts_after_unmount es0 props es1 es2 Hroot Hstay Hno) as [Hclear Hafter].
  destruct (Nat.leb_spec notification_delay (elapsed es1)); [lia|].
  rewrite app_nil_r in Hbefore, Hafter. auto.
Qed.

Lemma unmount_suppresses_completion_witness :
  posts (run ([] ++ Mount no_props ::
              [AssetLoaded; Elapse 999] ++ Unmount :: [Elapse 1; Elapse 4000])
             initial) = [].
Proof.
  exact (proj2 (proj2 (unmount_suppresses_completion
           [] no_props [AssetLoaded; Elapse 999] [Elapse 1; Elapse 4000]
           eq_refl eq_refl
           (proj1 (Nat.ltb_lt 999 1000) eq_refl)
           eq_refl))).
Defined.

(** C6, as the code has it. The notification of a mount goes out exactly once
    if the block stays mounted through the delay and not at all if it is
    unmounted earlier; nothing else decides it. The [postMessage] calls after a
    mount are fixed by the time the block stays mounted: asset loading, checkbox
    and reset interaction, frames, props and state changes have no part in
    whether, when or what is posted, and however long the run goes on nothing
    is posted again. More generally two runs with the same mounts, unmounts and
    passing of time post the same messages at the same times. *)
Theorem completion_decided_by_mounted_time (es0 : list Event)
    (props : Block.BlockProps) (es es1 es2 : list Event) :
  root (run es0 initial) = None ->
  no_mount es = true ->
  lifecycle es1 = lifecycle es2 ->
  posts (run (es0 ++ Mount props :: es) initial) =
  posts (run es0 initial) ++
  (if notification_delay <=? mounted_time es
   then completion_posts (now (browser (run es0 initial)) + notification_delay)
   else []) /\
  posts (run es1 initial) = posts (run es2 initial).
Proof.
  intros Hroot Hno Hsame. split.
  - destruct (split_at_unmount es) as [Hstay | (ea & eb & -> & Hstay)].
    + rewrite (mounted_time_stays es Hstay).
      now apply posts_while_mounted.
    + rewrite (mounted_time_unmount ea eb Hstay).
      apply posts_after_unmount; auto.
      now apply no_mount_tail in Hno.
  - now rewrite !posts_timing, !timing_run, Hsame.
Qed.

Lemma completion_decided_by_mounted_time_witness :
  posts (run ([] ++ Mount no_props ::
              [Elapse 400; AssetLoaded; CheckboxChange false; Elapse 700;
               Unmount; Elapse 3000]) initial) =
  completion_posts 1000 /\
  posts (run [Mount no_props; AssetLoaded; ControlsAttached; Elapse 1200;
              ClickResetCamera; Frame 0.25%float] initial) =
  posts (run [Mount {| Block.title := Some "Duck"; Block.description := Some "A duck" |};
              CheckboxChange false; Elapse 1200] initial).
Proof.
  exact (completion_decided_by_mounted_time
           [] no_props
           [Elapse 400; AssetLoaded; CheckboxChange false; Elapse 700;
            Unmount; Elapse 3000]
           [Mount no_props; AssetLoaded; ControlsAttached; Elapse 1200;
            ClickResetCamera; Frame 0.25%float]
           [Mount {| Block.title := Some "Duck"; Block.description := Some "A duck" |};
            CheckboxChange false; Elapse 1200]
           eq_refl eq_refl eq_refl).
Defined.

(** One mount, unmounted after half a second, and five more seconds of waiting:
    the delay has long passed and nothing was ever posted, so this mount did
    not fire its notification once. *)
Lemma early_unmount_fires_nothing :
  root initial = None /\
  no_mount [Elapse 500; Unmount; Elapse 4000] = true /\
  notification_delay <= elapsed [Elapse 500; Unmount; Elapse 4000] /\
  posts (run (Mount no_props :: [Elapse 500; Unmount; Elapse 4000]) initial) = [] /\
  posts (run (Mount no_props :: [Elapse 500; Unmount; Elapse 4000]) initial) <>
  completion_posts 1000.
Proof.
  repeat split; try reflexivity.
  - apply Nat.leb_le. reflexivity.
  - vm_compute. discriminate.
Qed.

(** ** Calls on the outside *)

Lemma completion_posts_ok (ts : list Timer) :
  Forall call_ok (flat_map (fun x => completion_posts (due x)) ts).
Proof.
  induction ts as [|x rest IH]; cbn; [constructor|].
  repeat constructor; assumption.
Qed.

(** Each event only appends to the list of calls, and appends only calls of
    the three known kinds. *)
Lemma step_calls (e : Event) (w : World) :
  exists new,
    calls (browser (step e w)) = calls (browser w) ++ new /\ Forall call_ok new.
Proof.
  assert (Hnone : exists new,
             calls (browser w) = calls (browser w) ++ new /\ Forall call_ok new)
    by (exists []; rewrite app_nil_r; split; [reflexivity|constructor]).
  assert (Hload : forall b : Browser.State, exists new,
             calls b ++ [(now b, UseLoader asset_url)] = calls b ++ new /\
             Forall call_ok new)
    by (intros b; eexists; split; [reflexivity|repeat constructor]).
  destruct w as [b r]; destruct e; destruct r as [i|]; cbn [step root browser];
    try exact Hnone.
  - (* Mount *) unfold update; cbn. apply Hload.
  - (* Elapse *) unfold exec. rewrite elapse_completion. cbn [calls].
    eexists; split; [reflexivity|apply completion_posts_ok].
  - unfold exec. rewrite elapse_completion. cbn [calls].
    eexists; split; [reflexivity|apply completion_posts_ok].
  - (* AssetLoaded *) unfold update; cbn. apply Hload.
  - (* CheckboxChange *) unfold update; cbn. apply Hload.
  - (* ClickResetCamera *)
    unfold Block.resetCamera. destruct (Block.controlsRef (state i)); cbn.
    + eexists; split; [reflexivity|repeat constructor].
    + exact Hnone.
  - (* Rerender *) unfold update; cbn. apply Hload.
Qed.

Lemma run_calls (es : list Event) :
  forall w, Forall call_ok (calls (browser w)) ->
            Forall call_ok (calls (browser (run es w))).
Proof.
  induction es as [|e rest IH]; intros w H; cbn; [exact H|].
  apply IH. destruct (step_calls e w) as (new & -> & Hnew).
  apply Forall_app; split; assumption.
Qed.

Lemma reachable_calls (es : list Event) :
  Forall call_ok (calls (browser (run es initial))).
Proof. apply run_calls. constructor. Qed.

Lemma loader_urls_calls (w : World) (u : string) :
  In u (loader_urls w) -> exists t, In (t, UseLoader u) (calls (browser w)).
Proof.
  unfold loader_urls. rewrite in_flat_map. intros ((t, c) & Hin & Hu).
  destruct c; cbn in Hu; try contradiction.
  destruct Hu as [-> | []]. now exists t.
Qed.

(** C5. In every pair of executions, whatever the props and whatever the
    events, each URL handed to the asset loader is the one constant of the
    file; [DuckModel] passes it at every render, for any props of its own, and
    a mount does make that call. *)
Theorem asset_url_is_fixed (es1 es2 : list Event) (u1 u2 : string) :
  In u1 (loader_urls (run es1 initial)) ->
  In u2 (loader_urls (run es2 initial)) ->
  (u1 = "https://content.mext.app/uploads/bae853a8-ee93-4c72-9007-d73e1df8dba9.glb" /\
   u2 = u1) /\
  (forall (props : DuckModel.Props) (b : Browser.State),
      calls (exec (DuckModel.DuckModel props) b) =
      calls b ++
      [(now b,
        UseLoader
          "https://content.mext.app/uploads/bae853a8-ee93-4c72-9007-d73e1df8dba9.glb")]) /\
  (forall (props : Block.BlockProps) (b : Browser.State),
      loader_urls (step (Mount props) {| browser := b; root := None |}) =
      loader_urls {| browser := b; root := None |} ++
      ["https://content.mext.app/uploads/bae853a8-ee93-4c72-9007-d73e1df8dba9.glb"]).
Proof.
  intros H1 H2.
  assert (Hfix : forall es u, In u (loader_urls (run es initial)) -> u = asset_url).
  { intros es u Hin. apply loader_urls_calls in Hin as (t & Hin).
    pose proof (reachable_calls es) as Hok. rewrite Forall_forall in Hok.
    exact (Hok _ Hin). }
  split; [|split].
  - rewrite (Hfix _ _ H1), (Hfix _ _ H2). split; reflexivity.
  - intros props b. reflexivity.
  - intros props b. unfold loader_urls, step, update; cbn.
    now rewrite flat_map_app.
Qed.

Lemma asset_url_is_fixed_witness :
  In asset_url (loader_urls (run [Mount no_props; AssetLoaded] initial)) /\
  In asset_url
     (loader_urls
        (run [Mount {| Block.title := Some "Duck"; Block.description := None |};
              CheckboxChange false; Elapse 1000] initial)) /\
  asset_url = "https://content.mext.app/uploads/bae853a8-ee93-4c72-9007-d73e1df8dba9.glb" /\
  asset_url = asset_url.
Proof.
  refine (conj (or_introl eq_refl) (conj (or_introl eq_refl) _)).
  exact (proj1 (asset_url_is_fixed
           [Mount no_props; AssetLoaded]
           [Mount {| Block.title := Some "Duck"; Block.description := None |};
            CheckboxChange false; Elapse 1000]
           asset_url asset_url
           (or_introl eq_refl) (or_introl eq_refl))).
Defined.

Lemma deliveries_posts (origin_of : WindowRef -> string) (w : World) :
  deliveries origin_of w =
  flat_map (fun c => match delivered origin_of (snd c) with
                     | Some d => [d]
                     | None => []
                     end)
           (posts w).
Proof.
  unfold deliveries, posts.
  induction (calls (browser w)) as [|[t c] rest IH]; [reflexivity|].
  destruct c; cbn; now rewrite IH.
Qed.

(** C10. Both completion messages are posted with target origin ["*"]. The
    timer callback makes exactly two calls, [window.postMessage] and
    [window.parent.postMessage], each with the fixed message and ["*"]; no
    other message is ever posted, so every post of any run has that origin and
    that content and is delivered whatever the origin of its target's
    document. For a mount that stays mounted through the delay, what the
    windows receive is the same for every assignment of origins: the fixed
    message at the current window, then the fixed message at the parent. *)
Theorem completion_posted_to_any_origin (es : list Event) (t : nat)
    (w : WindowRef) (m : Message) (o : string)
    (es0 : list Event) (props : Block.BlockProps) (es1 : list Event) :
  In (t, PostMessage w m o) (calls (browser (run es initial))) ->
  root (run es0 initial) = None ->
  stays_mounted es1 = true ->
  notification_delay <= elapsed es1 ->
  o = "*" /\
  m = {| type := "BLOCK_COMPLETION";
         blockId := "685da7c487fb8b8b70d865d2";
         completed := true |} /\
  (forall origin_of : WindowRef -> string,
      delivered origin_of (PostMessage w m o) = Some (w, BLOCK_COMPLETION)) /\
  (forall b : Browser.State,
      calls (exec Block.timer_callback b) =
      calls b ++
      [ (now b,
         PostMessage window
           {| type := "BLOCK_COMPLETION";
              blockId := "685da7c487fb8b8b70d865d2";
              completed := true |} "*");
        (now b,
         PostMessage window_parent
           {| type := "BLOCK_COMPLETION";
              blockId := "685da7c487fb8b8b70d865d2";
              completed := true |} "*") ]) /\
  (forall origin_of : WindowRef -> string,
      deliveries origin_of (run (es0 ++ Mount props :: es1) initial) =
      deliveries origin_of (run es0 initial) ++
      [ (window,
         {| type := "BLOCK_COMPLETION";
            blockId := "685da7c487fb8b8b70d865d2";
            completed := true |});
        (window_parent,
         {| type := "BLOCK_COMPLETION";
            blockId := "685da7c487fb8b8b70d865d2";
            completed := true |}) ]).
Proof.
  intros Hin Hroot Hstay Hdelay.
  pose proof (reachable_calls es) as Hok. rewrite Forall_forall in Hok.
  destruct (Hok _ Hin) as [-> ->].
  split; [reflexivity|]. split; [reflexivity|]. split; [reflexivity|].
  split.
  - intros b. unfold exec, Block.timer_callback, postMessage, bind, call; cbn.
    now rewrite <- app_assoc.
  - intros origin_of.
    rewrite !deliveries_posts, (posts_while_mounted es0 props es1 Hroot Hstay).
    destruct (Nat.leb_spec notification_delay (elapsed es1)); [|lia].
    rewrite flat_map_app. reflexivity.
Qed.

(** One mount and one second, seen from the windows: both receive the fixed
    message, whatever their origins. *)
Lemma completion_posted_to_any_origin_witness :
  In (1000, PostMessage window_parent BLOCK_COMPLETION "*")
     (calls (browser (run [Mount no_props; Elapse 1000] initial))) /\
  root (run [] initial) = None /\
  forall origin_of : WindowRef -> string,
    deliveries origin_of (run ([] ++ Mount no_props :: [Elapse 1000]) initial) =
    [ (window, BLOCK_COMPLETION); (window_parent, BLOCK_COMPLETION) ].
Proof.
  refine (conj (or_intror (or_intror (or_introl eq_refl))) (conj eq_refl _)).
  exact (proj2 (proj2 (proj2 (proj2
           (completion_posted_to_any_origin
              [Mount no_props; Elapse 1000] 1000 window_parent BLOCK_COMPLETION "*"
              [] no_props [Elapse 1000]
              (or_intror (or_intror (or_introl eq_refl)))
              eq_refl eq_refl
              (proj1 (Nat.leb_le 1000 1000) eq_refl)))))).
Defined.

(** ** The checkbox *)

(** C3. In every state of a mounted block a change of the auto-rotate checkbox
    writes the checkbox's value into [autoRotate] and nothing else: props,
    [cameraMode], [controlsRef], the timer handle and the model's group stay as
    they were, the clock and the timer table are untouched, no message is
    posted and no reset is called; the scene handed to the canvas is the old
    one with the flag of [DuckModel] replaced. The render pass that follows
    calls the loader again with the same URL and makes no other call. *)
Theorem checkbox_changes_autoRotate_only (b : Browser.State) (i : Instance)
    (checked : bool) :
  root (step (CheckboxChange checked) {| browser := b; root := Some i |}) =
    Some {| props := props i;
            state := {| Block.autoRotate := checked;
                        Block.cameraMode := Block.cameraMode (state i);
                        Block.controlsRef := Block.controlsRef (state i) |};
            timer := timer i;
            meshRef := meshRef i |} /\
  scene (step (CheckboxChange checked) {| browser := b; root := Some i |}) =
    option_map (with_autoRotate checked) (scene {| browser := b; root := Some i |}) /\
  option_map Block.h1
    (view (step (CheckboxChange checked) {| browser := b; root := Some i |})) =
    option_map Block.h1 (view {| browser := b; root := Some i |}) /\
  option_map Block.p
    (view (step (CheckboxChange checked) {| browser := b; root := Some i |})) =
    option_map Block.p (view {| browser := b; root := Some i |}) /\
  now (browser (step (CheckboxChange checked) {| browser := b; root := Some i |})) =
    now b /\
  timers (browser (step (CheckboxChange checked) {| browser := b; root := Some i |})) =
    timers b /\
  next_timer_id
    (browser (step (CheckboxChange checked) {| browser := b; root := Some i |})) =
    next_timer_id b /\
  calls (browser (step (CheckboxChange checked) {| browser := b; root := Some i |})) =
    calls b ++ [(now b, UseLoader asset_url)] /\
  posts (step (CheckboxChange checked) {| browser := b; root := Some i |}) =
    posts {| browser := b; root := Some i |} /\
  resets (step (CheckboxChange checked) {| browser := b; root := Some i |}) =
    resets {| browser := b; root := Some i |}.
Proof.
  repeat split.
  - unfold posts; cbn. rewrite filter_app; cbn. now rewrite app_nil_r.
  - unfold resets; cbn. rewrite filter_app; cbn. now rewrite app_nil_r.
Qed.

(** ** The camera reset *)

Lemma resets_click (w : World) :
  resets (step ClickResetCamera w) =
  resets w +
  match root w with
  | Some i => if Block.truthy (Block.controlsRef (state i)) then 1 else 0
  | None => 0
  end.
Proof.
  destruct w as [b [i|]]; unfold resets; cbn [step root browser]; [|now rewrite Nat.add_0_r].
  unfold Block.resetCamera. destruct (Block.controlsRef (state i)); cbn.
  - rewrite filter_app, length_app. reflexivity.
  - now rewrite Nat.add_0_r.
Qed.

(** C4. With nothing in [controlsRef], [resetCamera] returns without throwing
    and leaves the browser as it was, and a click on the button leaves the
    whole page, the block's state included, unchanged. A click reaches the
    controls' [reset()] exactly when the ref holds an instance. *)
Theorem resetCamera_on_null_ref_is_noop (b : Browser.State) (i : Instance) :
  Block.controlsRef (state i) = None ->
  Block.resetCamera (state i) b = Returned tt b /\
  step ClickResetCamera {| browser := b; root := Some i |} =
    {| browser := b; root := Some i |} /\
  (forall w : World,
      resets (step ClickResetCamera w) =
      resets w +
      match root w with
      | Some j =>
          match Block.controlsRef (state j) with
          | Some _ => 1
          | None => 0
          end
      | None => 0
      end) /\
  (forall (c : OrbitControls) (st : Block.State),
      Block.controlsRef st = Some c ->
      Block.resetCamera st b =
      Returned tt
        {| now := now b;
           timers := timers b;
           next_timer_id := next_timer_id b;
           calls := calls b ++ [(now b, Reset c)] |}).
Proof.
  intros Hnull. repeat split.
  - unfold Block.resetCamera. now rewrite Hnull.
  - cbn. unfold Block.resetCamera. now rewrite Hnull.
  - intros w. rewrite resets_click.
    destruct (root w) as [j|]; [|reflexivity].
    destruct (Block.controlsRef (state j)); reflexivity.
  - intros c st Hc. unfold Block.resetCamera. now rewrite Hc.
Qed.

(** The block right after its mount, before the canvas has attached the
    controls. *)
Lemma resetCamera_on_null_ref_is_noop_witness :
  step ClickResetCamera (run [Mount no_props] initial) = run [Mount no_props] initial.
Proof.
  exact (proj1 (proj2 (resetCamera_on_null_ref_is_noop
           {| now := 0;
              timers := [completion_timer 0 1000];
              next_timer_id := 1;
              calls := [(0, UseLoader asset_url)] |}
           {| props := no_props;
              state := Block.initial_state;
              timer := 0;
              meshRef := None |}
           eq_refl))).
Defined.

(** ** The camera mode *)

Lemma step_mode_is_orbit (e : Event) (w : World) :
  mode_is_orbit w -> mode_is_orbit (step e w).
Proof.
  destruct w as [b [i|]]; destruct e; unfold mode_is_orbit; cbn; auto.
Qed.

Lemma run_mode_is_orbit (es : list Event) :
  forall w, mode_is_orbit w -> mode_is_orbit (run es w).
Proof.
  induction es as [|e rest IH]; intros w H; cbn; [exact H|].
  apply IH, step_mode_is_orbit, H.
Qed.

(** No handler looks at the cell: a step from a page with another mode stored
    is the same step with that mode still stored; on an empty page there is no
    cell, and a mount starts it afresh. *)
Lemma step_set_cameraMode (e : Event) (w : World) (m : string) :
  step e (set_cameraMode m w) = set_cameraMode m (step e w) \/
  step e (set_cameraMode m w) = step e w.
Proof.
  destruct w as [b [i|]].
  - left. destruct e; reflexivity.
  - right. reflexivity.
Qed.

Lemma run_set_cameraMode (es : list Event) :
  forall (w : World) (m : string),
    run es (set_cameraMode m w) = set_cameraMode m (run es w) \/
    run es (set_cameraMode m w) = run es w.
Proof.
  induction es as [|e rest IH]; intros w m; [left; reflexivity|].
  cbn [run fold_left].
  destruct (step_set_cameraMode e w m) as [-> | ->].
  - apply IH.
  - right. reflexivity.
Qed.

(** C7. [cameraMode] starts as ['orbit'] and no code path writes it: in every
    reachable state of a mounted block it is ['orbit']. Nothing reads it
    either: were any other string stored in the cell, every run would make the
    same calls at the same times, leave the same timers, render the same view
    and move the model the same way. *)
Theorem cameraMode_is_dead (es : list Event) (i : Instance)
    (es' : list Event) (w : World) (m : string) :
  root (run es initial) = Some i ->
  Block.cameraMode Block.initial_state = "orbit" /\
  Block.cameraMode (state i) = "orbit" /\
  browser (run es' (set_cameraMode m w)) = browser (run es' w) /\
  view (run es' (set_cameraMode m w)) = view (run es' w) /\
  option_map meshRef (root (run es' (set_cameraMode m w))) =
    option_map meshRef (root (run es' w)).
Proof.
  intros Hroot. split; [reflexivity|]. split.
  - pose proof (run_mode_is_orbit es initial I) as H.
    unfold mode_is_orbit in H. now rewrite Hroot in H.
  - destruct (run_set_cameraMode es' w m) as [-> | ->]; [|repeat split].
    destruct (run es' w) as [b [j|]]; repeat split.
Qed.

Lemma cameraMode_is_dead_witness :
  Block.cameraMode
    {| Block.autoRotate := false;
       Block.cameraMode := "orbit";
       Block.controlsRef := Some orbit_controls |} = "orbit" /\
  view (run [CheckboxChange true; Elapse 1000]
            (set_cameraMode "fly" (run [Mount no_props] initial))) =
  view (run [CheckboxChange true; Elapse 1000] (run [Mount no_props] initial)).
Proof.
  pose (H := cameraMode_is_dead
           [Mount no_props; ControlsAttached; CheckboxChange false]
           {| props := no_props;
              state := {| Block.autoRotate := false;
                          Block.cameraMode := "orbit";
                          Block.controlsRef := Some orbit_controls |};
              timer := 0;
              meshRef := None |}
           [CheckboxChange true; Elapse 1000]
           (run [Mount no_props] initial) "fly"
           eq_refl).
  exact (conj (proj1 (proj2 H)) (proj1 (proj2 (proj2 (proj2 H))))).
Defined.

(** ** The frame callback *)

(** C8. On a frame with the flag set and a group in the ref, the callback
    leaves behind the same group with [rotation.y] replaced by
    [rotation.y + delta * 0.5] (in the doubles of JavaScript) and with the x
    and z rotation, the position and the scale as they were; with the flag
    clear or the ref empty it leaves the ref's content as it was. A frame of a
    mounted block runs this callback with the block's current flag and does
    nothing else. *)
Theorem frame_turns_about_y_only (g : Three.Group) (delta : float)
    (meshRef0 : option Three.Group) (flag : bool) (b : Browser.State) (i : Instance) :
  DuckModel.useFrame_callback true (Some g) delta =
    Some {| Three.position := Three.position g;
            Three.rotation :=
              {| Three.x := Three.x (Three.rotation g);
                 Three.y := (Three.y (Three.rotation g) + delta * 0.5)%float;
                 Three.z := Three.z (Three.rotation g) |};
            Three.scale := Three.scale g |} /\
  DuckModel.useFrame_callback false meshRef0 delta = meshRef0 /\
  DuckModel.useFrame_callback flag None delta = None /\
  step (Frame delta) {| browser := b; root := Some i |} =
    {| browser := b;
       root := Some {| props := props i;
                       state := state i;
                       timer := timer i;
                       meshRef :=
                         DuckModel.useFrame_callback
                           (Block.autoRotate (state i)) (meshRef i) delta |} |}.
Proof.
  repeat split.
  destruct meshRef0; reflexivity.
Qed.

Example frame_at_two_seconds :
  DuckModel.useFrame_callback true
    (Some (DuckModel.create_group
             {| DuckModel.group_position := (0%float, 0%float, 0%float);
                DuckModel.group_scale := 1.5%float |}))
    2%float =
  Some {| Three.position := (0%float, 0%float, 0%float);
          Three.rotation := {| Three.x := 0%float; Three.y := 1%float; Three.z := 0%float |};
          Three.scale := (1.5%float, 1.5%float, 1.5%float) |}.
Proof. vm_compute. reflexivity. Qed.

(** ** The initial flag *)

(** C9. [autoRotate] starts as [true]: a block just mounted holds [true] in
    the cell, shows the checkbox checked and hands [true] to [DuckModel], so
    that frames turn the model before the checkbox is ever touched. *)
Theorem autoRotate_initially_true (props : Block.BlockProps) (b : Browser.State) :
  Block.autoRotate Block.initial_state = true /\
  option_map (fun i => Block.autoRotate (state i))
    (root (step (Mount props) {| browser := b; root := None |})) = Some true /\
  option_map Block.checkbox_checked
    (view (step (Mount props) {| browser := b; root := None |})) = Some true /\
  option_map (fun s => DuckModel.autoRotate_of (Block.duckModel s))
    (scene (step (Mount props) {| browser := b; root := None |})) = Some true.
Proof.
  repeat split.
Qed.


(** * Further properties *)

(** ** The timer over whole runs *)

Lemma lstep_invariant (l : Lifecycle) (t : Browser.State * option nat) (n : nat) :
  pending_ok t -> notified t n ->
  pending_ok (lstep l t) /\
  notified (lstep l t) (n + match l with LMount => 1 | _ => 0 end).
Proof.
  destruct t as [B h]. unfold pending_ok, notified; cbn [fst snd].
  intros HP (ts & Hcalls & Hts & Hlen).
  destruct l, h as [id|]; unfold lstep; cbn [fst snd].
  - (* mount over a mounted block: nothing happens *)
    split; [exact HP|]. exists ts. repeat split; auto. lia.
  - (* mount *)
    unfold Block.effect, setTimeout; cbn [fst snd now timers calls next_timer_id].
    rewrite HP in *. cbn [app List.length] in *. split.
    + right. exists (now B + 1000). unfold notification_delay.
      repeat split; lia.
    + exists ts. repeat split; auto. lia.
  - (* unmount *)
    unfold Block.cleanup, clearTimeout, exec; cbn [fst snd now timers calls].
    split.
    + destruct HP as [-> | (d & -> & _)]; cbn; [reflexivity|].
      now rewrite Nat.eqb_refl.
    + exists ts. repeat split; auto.
      pose proof (filter_length_le (fun t => negb (timer_id t =? id)) (timers B)).
      lia.
  - split; [exact HP|]. exists ts. repeat split; auto. lia.
  - (* time passes, mounted *)
    destruct HP as [HT | (d & HT & Hlt & Hle & Hmin)].
    + rewrite (elapse_idle ms B HT). unfold advanced; cbn [now timers calls].
      split; [left; reflexivity|].
      exists ts. rewrite app_nil_r. repeat split; auto.
      * eapply Forall_impl; [|exact Hts]. cbn. intros; lia.
      * rewrite HT in Hlen. cbn in *. lia.
    + rewrite (elapse_pending ms id d B HT).
      destruct (Nat.leb_spec d (now B + ms)).
      * unfold advanced; cbn [now timers calls]. split; [left; reflexivity|].
        exists (ts ++ [d]). rewrite flat_map_app, Hcalls. cbn [flat_map].
        rewrite app_nil_r. repeat split.
        -- apply Forall_app; split.
           ++ eapply Forall_impl; [|exact Hts]. cbn. intros; lia.
           ++ repeat constructor; lia.
        -- rewrite HT in Hlen. rewrite length_app. cbn in *. lia.
      * unfold advanced; cbn [now timers calls]. split.
        -- right. exists d. repeat split; lia.
        -- exists ts. rewrite app_nil_r. repeat split; auto.
           ++ eapply Forall_impl; [|exact Hts]. cbn. intros; lia.
           ++ rewrite HT in Hlen. cbn in *. lia.
  - (* time passes, empty page *)
    rewrite (elapse_idle ms B HP). unfold advanced; cbn [now timers calls].
    split; [reflexivity|].
    exists ts. rewrite app_nil_r. repeat split; auto.
    + eapply Forall_impl; [|exact Hts]. cbn. intros; lia.
    + rewrite HP in Hlen. cbn in *. lia.
Qed.

Lemma lrun_invariant (ls : list Lifecycle) :
  forall t n,
    pending_ok t -> notified t n ->
    pending_ok (lrun ls t) /\ notified (lrun ls t) (n + lmounts ls).
Proof.
  induction ls as [|l rest IH]; intros t n HP HN.
  - cbn. rewrite Nat.add_0_r. auto.
  - destruct (lstep_invariant l t n HP HN) as [HP' HN'].
    destruct (IH _ _ HP' HN') as [HP'' HN''].
    split; [exact HP''|].
    replace (n + lmounts (l :: rest))
      with (n + match l with LMount => 1 | _ => 0 end + lmounts rest);
      [exact HN''|].
    unfold lmounts. destruct l; cbn; lia.
Qed.

Lemma mounts_lifecycle (es : list Event) : lmounts (lifecycle es) = mounts es.
Proof.
  unfold lmounts, mounts.
  induction es as [|e rest IH]; [reflexivity|].
  destruct e; cbn; now rewrite ?IH.
Qed.

Lemma reachable_invariant (es : list Event) :
  pending_ok (timing (run es initial)) /\
  notified (timing (run es initial)) (mounts es).
Proof.
  rewrite timing_run, <- mounts_lifecycle.
  apply (lrun_invariant (lifecycle es) (timing initial) 0).
  - reflexivity.
  - exists []. repeat split; auto.
Qed.

(** X1. No timer outlives its block. In every reachable state the timer table
    holds at most one timer; with nothing mounted it is empty, and with a block
    mounted it is empty or holds that block's own timer, still to come and due
    within one delay. *)
Theorem no_timer_outlives_its_block (es : list Event) :
  List.length (timers (browser (run es initial))) <= 1 /\
  match root (run es initial) with
  | None => timers (browser (run es initial)) = []
  | Some i =>
      timers (browser (run es initial)) = [] \/
      exists d,
        timers (browser (run es initial)) = [completion_timer (timer i) d] /\
        now (browser (run es initial)) < d /\
        d <= now (browser (run es initial)) + 1000
  end.
Proof.
  destruct (reachable_invariant es) as [HP _].
  unfold pending_ok, timing in HP. cbn [fst snd posts_only timers now] in HP.
  destruct (root (run es initial)) as [i|]; cbn [option_map] in HP.
  - destruct HP as [HT | (d & HT & Hlt & Hle & _)].
    + rewrite HT. split; [cbn; lia|left; reflexivity].
    + rewrite HT. split; [cbn; lia|].
      right. exists d. repeat split. exact Hlt. exact Hle.
  - rewrite HP. split; [cbn; lia|reflexivity].
Qed.

(** X2. Over any run the [postMessage] calls are whole notifications, one pair
    after the other, and there are never more of them than mounts; none is sent
    in the first second of the page, and each carries the time of a moment
    already past. *)
Theorem notifications_never_exceed_mounts (es : list Event) :
  exists ts : list nat,
    posts (run es initial) = flat_map completion_posts ts /\
    List.length ts <= mounts es /\
    Forall (fun d => 1000 <= d /\ d <= now (browser (run es initial))) ts.
Proof.
  destruct (reachable_invariant es) as [_ (ts & Hcalls & Hts & Hlen)].
  exists ts. split; [exact Hcalls|]. split; [lia|exact Hts].
Qed.

(** ** Slicing time *)

(** X3. How the passing of time is cut up does not matter: on any reachable
    page, [a] milliseconds followed by [b] milliseconds leave exactly the page
    that [a + b] milliseconds leave, and no time at all leaves the page as it
    is. *)
Theorem elapse_composes (es : list Event) (a b : nat) :
  step (Elapse b) (step (Elapse a) (run es initial)) =
    step (Elapse (a + b)) (run es initial) /\
  step (Elapse 0) (run es initial) = run es initial.
Proof.
  destruct (reachable_invariant es) as [HP _].
  unfold pending_ok, timing in HP. cbn [fst snd posts_only timers now] in HP.
  destruct (run es initial) as [B r]. cbn [browser root] in HP.
  assert (HT : timers B = [] \/
               exists id d, timers B = [completion_timer id d] /\ now B < d).
  { destruct r as [i|]; cbn [option_map] in HP; [|left; exact HP].
    destruct HP as [HT | (d & HT & Hlt & _)]; [left; exact HT|].
    right. exists (timer i), d. split; assumption. }
  clear HP. unfold step; cbn [browser root].
  destruct HT as [HT | (id & d & HT & Hlt)].
  - rewrite !(elapse_idle _ B HT).
    rewrite (elapse_idle b (advanced B a [] [])) by reflexivity.
    split.
    + destruct r; unfold advanced; cbn [now timers calls next_timer_id];
        rewrite !app_nil_r, Nat.add_assoc; reflexivity.
    + rewrite <- HT at 1. rewrite advanced_0. destruct r; reflexivity.
  - rewrite !(elapse_pending _ id d B HT).
    split.
    + destruct (Nat.leb_spec d (now B + a)) as [Ha|Ha].
      * destruct (Nat.leb_spec d (now B + (a + b))); [|lia].
        rewrite (elapse_idle b (advanced B a [] (completion_posts d))) by reflexivity.
        destruct r; unfold advanced; cbn [now timers calls next_timer_id];
          rewrite !app_nil_r, Nat.add_assoc; reflexivity.
      * rewrite (elapse_pending b id d (advanced B a [completion_timer id d] []))
          by reflexivity.
        cbn [advanced now]. rewrite <- Nat.add_assoc.
        destruct (d <=? now B + (a + b));
          destruct r; unfold advanced; cbn [now timers calls next_timer_id];
          rewrite ?app_nil_r, ?Nat.add_assoc; reflexivity.
    + destruct (Nat.leb_spec d (now B + 0)); [lia|].
      rewrite <- HT. rewrite advanced_0. destruct r; reflexivity.
Qed.

(** ** The model's transform over whole runs *)

Lemma create_group_upright (props : Block.BlockProps) (st : Block.State) :
  upright
    (DuckModel.create_group
       {| DuckModel.group_position :=
            DuckModel.position_of (Block.duckModel (Block.canvas (Block.Block props st)));
          DuckModel.group_scale :=
            DuckModel.scale_of (Block.duckModel (Block.canvas (Block.Block props st))) |}).
Proof. repeat split. Qed.

Lemma useFrame_callback_upright (flag : bool) (g : Three.Group) (delta : float) :
  upright g ->
  match DuckModel.useFrame_callback flag (Some g) delta with
  | Some g' => upright g'
  | None => True
  end.
Proof.
  intros (Hp & Hs & Hx & Hz). destruct flag; cbn; repeat split; assumption.
Qed.

Lemma step_upright (e : Event) (w : World) :
  group_upright w -> group_upright (step e w).
Proof.
  destruct w as [b [[p st t [g|]]|]]; destruct e; unfold group_upright;
    cbn [step root browser update mount asset_loaded set_state set_ref on_frame
         render DuckModel.DuckModel DuckModel.useLoader call bind ret
         props state timer meshRef Block.effect setTimeout];
    intros H; try exact H; try exact I.
  - (* a frame on an attached group *)
    unfold DuckModel.frame. apply useFrame_callback_upright, H.
  - (* the asset arrives *)
    apply create_group_upright.
Qed.

Lemma run_upright (es : list Event) :
  forall w, group_upright w -> group_upright (run es w).
Proof.
  induction es as [|e rest IH]; intros w H; cbn; [exact H|].
  apply IH, step_upright, H.
Qed.

(** X4. Whatever happens, the model is only ever turned about its y axis: in
    every reachable state with the group attached it sits at the origin, is
    scaled by 1.5 on all three axes and has no x and no z rotation. *)
Theorem model_only_turns_about_y (es : list Event) (i : Instance) (g : Three.Group) :
  root (run es initial) = Some i ->
  meshRef i = Some g ->
  Three.position g = (0%float, 0%float, 0%float) /\
  Three.scale g = (1.5%float, 1.5%float, 1.5%float) /\
  Three.x (Three.rotation g) = 0%float /\
  Three.z (Three.rotation g) = 0%float.
Proof.
  intros Hroot Hmesh.
  pose proof (run_upright es initial I) as H.
  unfold group_upright in H. now rewrite Hroot, Hmesh in H.
Qed.

Lemma model_only_turns_about_y_witness :
  root (run [Mount no_props; AssetLoaded; Frame 2%float; CheckboxChange false;
             Frame 1%float; CheckboxChange true; Frame 0.5%float] initial) =
  Some {| props := no_props;
          state := {| Block.autoRotate := true;
                      Block.cameraMode := "orbit";
                      Block.controlsRef := None |};
          timer := 0;
          meshRef :=
            Some {| Three.position := (0%float, 0%float, 0%float);
                    Three.rotation := {| Three.x := 0%float;
                                         Three.y := 1.25%float;
                                         Three.z := 0%float |};
                    Three.scale := (1.5%float, 1.5%float, 1.5%float) |} |} /\
  Three.x (Three.rotation
             {| Three.position := (0%float, 0%float, 0%float);
                Three.rotation := {| Three.x := 0%float;
                                     Three.y := 1.25%float;
                                     Three.z := 0%float |};
                Three.scale := (1.5%float, 1.5%float, 1.5%float) |}) = 0%float.
Proof.
  refine (conj eq_refl _).
  exact (proj1 (proj2 (proj2 (model_only_turns_about_y
           [Mount no_props; AssetLoaded; Frame 2%float; CheckboxChange false;
            Frame 1%float; CheckboxChange true; Frame 0.5%float]
           _ _ eq_refl eq_refl)))).
Defined.

(** ** The checkbox over whole runs *)

Lemma step_unchecked (e : Event) (b : Browser.State) (i : Instance) (g : Three.Group) :
  Block.autoRotate (state i) = false ->
  meshRef i = Some g ->
  is_unmount e = false ->
  is_checkbox e = false ->
  exists b' i',
    step e {| browser := b; root := Some i |} = {| browser := b'; root := Some i' |} /\
    Block.autoRotate (state i') = false /\
    meshRef i' = Some g.
Proof.
  destruct i as [p st t m]. cbn [state meshRef]. intros Hflag -> Hu Hc.
  destruct e; try discriminate; cbn; eexists _, _; (split; [reflexivity|]); cbn;
    try (split; [assumption|reflexivity]).
  (* a frame *)
  unfold DuckModel.frame; cbn. rewrite Hflag. split; reflexivity.
Qed.

(** X5. Unchecking the box stops the model. From any state of a mounted block
    with [autoRotate] false and a group attached, no run that leaves the
    checkbox alone and does not unmount the block changes the group: frames,
    time, the reset button and re-renders leave every component of its
    transform as it was. *)
Theorem unchecked_model_stands_still (es : list Event) (b : Browser.State)
    (i : Instance) (g : Three.Group) :
  Block.autoRotate (state i) = false ->
  meshRef i = Some g ->
  stays_mounted es = true ->
  no_checkbox es = true ->
  exists j,
    root (run es {| browser := b; root := Some i |}) = Some j /\
    meshRef j = Some g /\
    Block.autoRotate (state j) = false.
Proof.
  revert b i. induction es as [|e rest IH]; intros b i Hflag Hmesh Hstay Hno.
  - exists i. repeat split; assumption.
  - cbn in Hstay, Hno.
    apply andb_prop in Hstay as [Hu Hstay]. apply andb_prop in Hno as [Hc Hno].
    apply negb_true_iff in Hu, Hc.
    destruct (step_unchecked e b i g Hflag Hmesh Hu Hc) as (b' & i' & Hstep & Hflag' & Hmesh').
    cbn [run fold_left]. rewrite Hstep.
    exact (IH b' i' Hflag' Hmesh' Hstay Hno).
Qed.

Lemma unchecked_model_stands_still_witness :
  exists j,
    root (run [Frame 2%float; Elapse 16; ClickResetCamera; AssetLoaded; Frame 2%float]
              (run [Mount no_props; AssetLoaded; Frame 1%float; CheckboxChange false]
                   initial)) = Some j /\
    meshRef j =
      Some {| Three.position := (0%float, 0%float, 0%float);
              Three.rotation := {| Three.x := 0%float;
                                   Three.y := 0.5%float;
                                   Three.z := 0%float |};
              Three.scale := (1.5%float, 1.5%float, 1.5%float) |} /\
    Block.autoRotate (state j) = false.
Proof.
  exact (unchecked_model_stands_still
           [Frame 2%float; Elapse 16; ClickResetCamera; AssetLoaded; Frame 2%float]
           (browser (run [Mount no_props; AssetLoaded; Frame 1%float;
                          CheckboxChange false] initial))
           {| props := no_props;
              state := {| Block.autoRotate := false;
                          Block.cameraMode := "orbit";
                          Block.controlsRef := None |};
              timer := 0;
              meshRef :=
                Some {| Three.position := (0%float, 0%float, 0%float);
                        Three.rotation := {| Three.x := 0%float;
                                             Three.y := 0.5%float;
                                             Three.z := 0%float |};
                        Three.scale := (1.5%float, 1.5%float, 1.5%float) |} |}
           _ eq_refl eq_refl eq_refl eq_refl).
Defined.

(** X6. The last change of the checkbox wins, and changing it back undoes the
    change: after two changes the block is what the second alone would have
    made it, and a change followed by one back to the old value leaves the
    block (state, refs, timer handle, model) exactly as it was. *)
Theorem last_checkbox_change_wins (b : Browser.State) (i : Instance) (a c : bool) :
  root (step (CheckboxChange a)
          (step (CheckboxChange c) {| browser := b; root := Some i |})) =
    root (step (CheckboxChange a) {| browser := b; root := Some i |}) /\
  root (step (CheckboxChange (Block.autoRotate (state i)))
          (step (CheckboxChange c) {| browser := b; root := Some i |})) = Some i.
Proof.
  split; [reflexivity|].
  destruct i as [p [flag mode ref] t m]. reflexivity.
Qed.

(** ** The reset button *)

(** X7. In every state a click on the reset button leaves the block alone: its
    state, refs, timer handle and the model's transform are unchanged, and so
    are the clock, the timer table, the messages posted, the loader calls and
    the scene. All it can add is a [reset()] call. *)
Theorem reset_click_changes_no_state (w : World) :
  root (step ClickResetCamera w) = root w /\
  now (browser (step ClickResetCamera w)) = now (browser w) /\
  timers (browser (step ClickResetCamera w)) = timers (browser w) /\
  next_timer_id (browser (step ClickResetCamera w)) = next_timer_id (browser w) /\
  posts (step ClickResetCamera w) = posts w /\
  loader_urls (step ClickResetCamera w) = loader_urls w /\
  scene (step ClickResetCamera w) = scene w.
Proof.
  destruct w as [b [i|]]; [|repeat split].
  unfold step, posts, loader_urls, scene, Block.resetCamera;
    cbn [root browser].
  destruct (Block.controlsRef (state i)) as [c|]; cbn; [|repeat split].
  rewrite filter_app, flat_map_app; cbn. rewrite !app_nil_r. repeat split.
Qed.

(** ** The header *)

Lemma step_latest_props (e : Event) (b : Browser.State) (i : Instance) :
  is_unmount e = false ->
  exists b' j,
    step e {| browser := b; root := Some i |} = {| browser := b'; root := Some j |} /\
    props j = latest_props (props i) [e].
Proof.
  intros Hu. destruct e; try discriminate; cbn; eexists _, _; split; reflexivity.
Qed.

Lemma latest_props_cons (p : Block.BlockProps) (e : Event) (es : list Event) :
  latest_props p (e :: es) = latest_props (latest_props p [e]) es.
Proof. destruct e; reflexivity. Qed.

Lemma run_latest_props (es : list Event) :
  forall (b : Browser.State) (i : Instance),
    stays_mounted es = true ->
    exists b' j,
      run es {| browser := b; root := Some i |} = {| browser := b'; root := Some j |} /\
      props j = latest_props (props i) es.
Proof.
  induction es as [|e rest IH]; intros b i Hstay.
  - exists b, i. split; reflexivity.
  - cbn in Hstay. apply andb_prop in Hstay as [Hu Hstay].
    apply negb_true_iff in Hu.
    destruct (step_latest_props e b i Hu) as (b1 & j1 & Hstep & Hp1).
    destruct (IH b1 j1 Hstay) as (b2 & j2 & Hrun & Hp2).
    exists b2, j2. cbn [run fold_left]. rewrite Hstep. split; [exact Hrun|].
    now rewrite latest_props_cons, <- Hp1.
Qed.

(** X9. The header shows the props of the latest render and nothing else:
    while the block stays mounted, checkbox changes, reset clicks, frames, the
    timer and the asset's arrival never change it, and a re-render with new
    props replaces it. The heading is the [title] prop, or ["3D Duck
    Visualizer"] when the prop is left out (an empty title is shown as it is);
    the paragraph is there exactly when [description] is given and not
    empty. *)
Theorem header_follows_props (b : Browser.State) (p : Block.BlockProps)
    (es : list Event) :
  stays_mounted es = true ->
  option_map Block.h1
    (view (run es (step (Mount p) {| browser := b; root := None |}))) =
    Some match Block.title (latest_props p es) with
         | Some t => t
         | None => "3D Duck Visualizer"
         end /\
  option_map Block.p
    (view (run es (step (Mount p) {| browser := b; root := None |}))) =
    Some match Block.description (latest_props p es) with
         | Some d => if (d =? "")%string then None else Some d
         | None => None
         end.
Proof.
  intros Hstay.
  change (step (Mount p) {| browser := b; root := None |})
    with {| browser := exec (mount p) b;
            root := Some {| props := p; state := Block.initial_state;
                            timer := next_timer_id b; meshRef := None |} |}.
  destruct (run_latest_props es (exec (mount p) b)
              {| props := p; state := Block.initial_state;
                 timer := next_timer_id b; meshRef := None |} Hstay)
    as (b' & j & -> & Hp).
  unfold view; cbn [root option_map]. cbn [props] in Hp. rewrite <- Hp.
  split; reflexivity.
Qed.

(** Mounted with a title, then rendered again with another title and a
    description, then with an empty title and an empty description. *)
Lemma header_follows_props_witness :
  (option_map Block.h1
     (view (run [CheckboxChange false;
                 Rerender {| Block.title := Some "Second";
                             Block.description := Some "A duck" |};
                 Elapse 1000; ClickResetCamera]
                (step (Mount {| Block.title := Some "First";
                                Block.description := None |})
                      {| browser := Browser.initial; root := None |}))) =
     Some "Second" /\
   option_map Block.p
     (view (run [CheckboxChange false;
                 Rerender {| Block.title := Some "Second";
                             Block.description := Some "A duck" |};
                 Elapse 1000; ClickResetCamera]
                (step (Mount {| Block.title := Some "First";
                                Block.description := None |})
                      {| browser := Browser.initial; root := None |}))) =
     Some (Some "A duck")) /\
  (option_map Block.h1
     (view (run [Rerender {| Block.title := Some ""; Block.description := Some "" |};
                 AssetLoaded]
                (step (Mount no_props)
                      {| browser := Browser.initial; root := None |}))) =
     Some "" /\
   option_map Block.p
     (view (run [Rerender {| Block.title := Some ""; Block.description := Some "" |};
                 AssetLoaded]
                (step (Mount no_props)
                      {| browser := Browser.initial; root := None |}))) =
     Some None).
Proof.
  split.
  - exact (header_follows_props Browser.initial
             {| Block.title := Some "First"; Block.description := None |}
             [CheckboxChange false;
              Rerender {| Block.title := Some "Second";
                          Block.description := Some "A duck" |};
              Elapse 1000; ClickResetCamera]
             eq_refl).
  - exact (header_follows_props Browser.initial no_props
             [Rerender {| Block.title := Some ""; Block.description := Some "" |};
              AssetLoaded]
             eq_refl).
Defined.
